(** * The lunch-button notification service (app.js)

    A shallow embedding of the request handlers, the start-up sequence and
    the persistence routine of [app.js].

    Conventions of the embedding.
    - The global [users] object and each per-identity bindings object are
      finite maps keyed by strings.  Enumeration ([for ... in]) goes through
      [map_to_list]; the order of enumeration is not part of any statement
      below.  Property names inherited from [Object.prototype] are not
      modelled: a lookup on a key that was never stored is [None].
    - External calls (the notify service, the slack bridge, the file system,
      the HTTP response, warnings and errors of the logger) are recorded as
      a trace of [effect]s, in program order.  [logger.info] lines are left
      out: they neither read nor change anything a handler depends on.
    - A promise handed back by a collaborator settles later, in a turn of
      its own; such a turn takes the [outcome] as its input.  A collaborator
      reports a failure through that promise; it does not throw into the
      handler that called it.
    - Fields of a request body are strings, or are not there. *)

From Stdlib Require Import Ascii.
From stdpp Require Import gmap strings list fin_maps.

(** Closes an equation between closed terms by evaluating both sides; the
    cast is checked where it is written and again by the kernel. *)
Ltac evaluate :=
  lazymatch goal with
  | |- @eq ?T ?lhs ?rhs => exact (@eq_refl T rhs <: lhs = rhs)
  end.

(** ** Promises *)

Module Js.

(** How an asynchronous operation ends. *)
Inductive outcome (A : Type) : Type :=
| Resolved (res : A)
| Rejected (err : string).
Arguments Resolved {A} res.
Arguments Rejected {A} err.

(** A value of the language, as far as the promise of [persistUsers]
    carries one: nothing ([undefined]) or an error object. *)
Inductive value : Type :=
| Undefined
| Error (msg : string).

(** The state of a promise: what it is fulfilled with, or what it is
    rejected with. *)
Inductive promise (A E : Type) : Type :=
| Pending
| Fulfilled (v : A)
| RejectedWith (e : E).
Arguments Pending {A E}.
Arguments Fulfilled {A E} v.
Arguments RejectedWith {A E} e.

(** [new Promise(executor)]: the executor receives the resolving function
    as its FIRST argument and the rejecting function as its SECOND,
    whatever the executor calls its parameters.  The executors of this
    program call exactly one of the two, once. *)
Definition new_Promise {A E : Type}
    (executor : (A -> promise A E) -> (E -> promise A E) -> promise A E)
  : promise A E :=
  executor Fulfilled RejectedWith.

(** [Promise.all]: the number of elements still to fulfil, and whether
    the combined promise has settled. *)
Inductive all_status : Type := AllPending | AllFulfilled | AllRejected.

Record promise_all : Type := PromiseAll {
  remaining : nat;
  status : all_status
}.

(** Plain values in the argument array count as fulfilled elements, so
    only the [n] genuine promises remain; with none the combined promise
    is fulfilled at once. *)
Definition all_start (n : nat) : promise_all :=
  PromiseAll n (if decide (n = 0) then AllFulfilled else AllPending).

Definition all_element_fulfilled (p : promise_all) : promise_all :=
  let n := pred (remaining p) in
  PromiseAll n
    match status p with
    | AllPending => if decide (n = 0) then AllFulfilled else AllPending
    | s => s
    end.

Definition all_element_rejected (p : promise_all) : promise_all :=
  PromiseAll (remaining p)
    match status p with
    | AllPending => AllRejected
    | s => s
    end.

End Js.
Export Js.

(** ** Data *)

(** The line feed of the template strings. *)
Definition nl : string := String (ascii_of_nat 10) EmptyString.

(** [Array.prototype.join]. *)
Fixpoint join (sep : string) (l : list string) : string :=
  match l with
  | [] => ""
  | [x] => x
  | x :: rest => x +:+ sep +:+ join sep rest
  end.

(** [const file = './users.json'] *)
Definition file : string := "./users.json".

(** identity -> (channel -> binding handle) *)
Abbreviation bindings := (gmap string string).
Abbreviation registry := (gmap string (gmap string string)).

(** The outcome of [fs.writeFile], as its callback sees it: [None] is a
    callback without an error. *)
Definition write_result : Type := option string.

(** [persistUsers], the promise it returns once [fs.writeFile] has called
    back.  The executor is [(reject, resolve) => ...]: its parameter named
    [reject] is bound first and its parameter named [resolve] second. *)
Definition persistUsers_promise (written : write_result)
  : promise value value :=
  new_Promise (fun reject resolve =>
    match written with
    | Some err => reject (Error err)
    | None => resolve Undefined
    end).

(** What a caller that awaits a promise sees. *)
Inductive awaited : Type :=
| Returned (v : value)
| Thrown (v : value)
| NeverReturns.

Definition await (p : promise value value) : awaited :=
  match p with
  | Pending => NeverReturns
  | Fulfilled v => Returned v
  | RejectedWith v => Thrown v
  end.

(** The constant stored for the channel that needs no provisioning. *)
Definition slack_marker : string := "https://www.slack.com/notifyme".

(** What [new RegistrationCommand(text)] builds (util.js). *)
Record RegistrationCommand : Type := {
  identity : string;
  isUnsubscribe : bool;
  channels : list string
}.

(** The request body of the SMS webhook: [req.body.Body], [req.body.From]. *)
Record sms_request : Type := {
  Body : string;
  From : string
}.

(** A truthy string is a non-empty one. *)
Definition truthy (s : string) : bool := bool_decide (s ≠ "").

(** [users[identity][channel] = value]; a TypeError, [None], when
    [users[identity]] is undefined. *)
Definition set_binding (identity channel value : string) (users : registry)
  : option registry :=
  b ← users !! identity;
  Some (<[identity := <[channel := value]> b]> users).

(** [Array.prototype.forEach] over a body that may throw. *)
Fixpoint forEach {A S : Type} (body : A -> S -> option S) (l : list A) (s : S)
  : option S :=
  match l with
  | [] => Some s
  | x :: rest => s' ← body x s; forEach body rest s'
  end.

(** ** The command grammar of util.js *)

Module Grammar.

(** [String.prototype.toLowerCase] on the letters A to Z. *)
Definition lower (c : ascii) : ascii :=
  let n := nat_of_ascii c in
  if bool_decide (65 ≤ n ≤ 90) then ascii_of_nat (n + 32) else c.

Fixpoint toLowerCase (s : string) : string :=
  match s with
  | EmptyString => EmptyString
  | String c rest => String (lower c) (toLowerCase rest)
  end.

Fixpoint trimStart (s : string) : string :=
  match s with
  | String c rest => if Ascii.is_space c then trimStart rest else s
  | EmptyString => EmptyString
  end.

(** [String.prototype.trim] *)
Definition trim (s : string) : string :=
  String.rev (trimStart (String.rev (trimStart s))).

(** The text before the first [sep] and the text after it. *)
Fixpoint cut (sep : ascii) (s : string) : option (string * string) :=
  match s with
  | EmptyString => None
  | String c rest =>
      if decide (c = sep) then Some (EmptyString, rest)
      else '(before, behind) ← cut sep rest; Some (String c before, behind)
  end.

(** [String.prototype.split] on one character. *)
Fixpoint split (sep : ascii) (s : string) : list string :=
  match s with
  | EmptyString => [EmptyString]
  | String c rest =>
      if decide (c = sep) then EmptyString :: split sep rest
      else match split sep rest with
           | first :: others => String c first :: others
           | [] => [String c EmptyString]
           end
  end.

(** Modelled from the spec: [new RegistrationCommand(text)] of util.js,
    which is not among the sources.  The text is [identity ":" payload];
    the identity is trimmed and lower-cased and must not be empty; the
    payload is the unsubscribe keyword or a comma-separated list of
    channel tokens, trimmed and lower-cased, of which the valid ones are
    kept.  A text without the separator or without an identity does not
    construct. *)
Definition parse (valid : list string) (text : string)
  : option RegistrationCommand :=
  '(before, behind) ← cut ":" text;
  let identity := toLowerCase (trim before) in
  let payload := toLowerCase (trim behind) in
  if decide (identity = "") then None
  else if decide (payload = "stop")
  then Some {| identity := identity; isUnsubscribe := true; channels := [] |}
  else Some {| identity := identity; isUnsubscribe := false;
               channels := filter (λ token, token ∈ valid)
                                  (trim <$> split "," payload) |}.

(** The channels the help text of app.js names in its example. *)
Definition example_channels : list string := ["sms"; "slack"; "ios"].

End Grammar.

Section App.

Set Default Proof Using "Type".

(** The collaborators that are not part of app.js. *)

(** What [cater2me.loadTodaysMenu()] resolves with, and which of these
    values the language takes for true in a condition. *)
Variable menu : Type.
Variable menu_truthy : menu -> bool.

(** [new RegistrationCommand(text)] of util.js; [None] when the
    constructor throws. *)
Variable new_RegistrationCommand : string -> option RegistrationCommand.

(** [RegistrationCommand.VALID_CHANNELS] *)
Variable VALID_CHANNELS : list string.

(** [JSON.parse] on the text of the snapshot; [None] when it throws. *)
Variable JSON_parse : string -> option registry.

(** *** Effects and responses *)

Inductive response : Type :=
| Twiml (messages : list string)
    (* <Response><Message>...</Message>...</Response> *)
| Plain (status : nat) (body : string)
| UsersJson (users : registry)
    (* res.send(users) *)
| MenuBody (status : nat) (content : menu).

(** Calls that leave the process, in program order. *)
Inductive effect : Type :=
| ReadFile (path : string)
    (* fs.readFileSync(path) *)
| AddBinding (identity kind address : string)
    (* notify.addBinding(identity, kind, address, []) *)
| DeleteBinding (handle : string)
    (* notify.deleteBinding(handle) *)
| NotifyUserByIdentity (identity message : string)
    (* notify.notifyUserByIdentity(identity, message) *)
| SlackNotifyUser (identity message : string)
                  (attachments : list (option menu))
    (* slack.notifyUser(identity, message, attachments) *)
| LoadTodaysMenu
    (* cater2me.loadTodaysMenu() *)
| WriteFile (path : string) (snapshot : registry)
    (* fs.writeFile(path, JSON.stringify(snapshot, null, 2), cb) *)
| LogWarn (msg : string)
| LogError (msg : string)
| Respond (r : response)
    (* res.status(..); res.send(..) *)
| Listen
    (* app.listen(port, ..) *)
| Throw (err : string).
    (* an exception or a rejection that nothing handles *)

(** The responses sent in a trace. *)
Definition responses (tr : list effect) : list response :=
  omap (λ e, match e with Respond r => Some r | _ => None end) tr.

(** The snapshots written in a trace. *)
Definition writes (tr : list effect) : list registry :=
  omap (λ e, match e with WriteFile _ s => Some s | _ => None end) tr.


(** The bindings asked of the notify service in a trace, each with its
    identity, kind and address. *)
Definition binding_calls (tr : list effect) : list (string * string * string) :=
  omap (λ e, match e with
             | AddBinding i k a => Some (i, k, a)
             | _ => None
             end) tr.

(** The handles whose deletion is asked of the notify service. *)
Definition deletions (tr : list effect) : list string :=
  omap (λ e, match e with DeleteBinding h => Some h | _ => None end) tr.

(** [persistUsers()], the call: one write of the registry as it is at
    the call. *)
Definition persistUsers (users : registry) : list effect :=
  [WriteFile file users].

(** *** POST /users *)

Definition supported : string :=
  "Supported channels are " +:+ join ", " VALID_CHANNELS +:+ "." +:+ nl
  +:+ "Ex: jdoe: sms, slack, ios".

Definition help : response :=
  Twiml
    [ "Register by texting:" +:+ nl
      +:+ "[ldap username]: [comma separated list of channels to be notified on]";
      supported;
      "If you would like to unsubscribe text:" +:+ nl
      +:+ "[ldap username]: stop" ].

Definition unsubscribed (identity : string) : response :=
  Twiml [ "You have been unsubscribed, " +:+ identity ].

Definition no_valid_channels : response :=
  Twiml [ "You must specify at least one valid channel"; supported ].

Definition signed_up (msg : string) : response :=
  Twiml [ msg +:+ nl +:+ "Well let you know when lunch arrives." ].

(** The deletions of the unsubscribe branch:
    [for (var bindType in users[identity])
       if (bindType != "slack" && bindType != null)
         notify.deleteBinding(users[identity][bindType])] *)
Definition delete_bindings (b : bindings) : list effect :=
  (λ kv, DeleteBinding kv.2)
    <$> filter (λ kv : string * string, kv.1 ≠ "slack") (map_to_list b).

(** What the loop over the channels has built so far: the registry, the
    calls made, and the channels whose [addBinding] promise is
    outstanding. *)
Record binding_loop : Type := BindingLoop {
  loop_users : registry;
  loop_calls : list effect;
  loop_pending : list string
}.

(** The body of [command.channels.forEach((channel) => ...)]. *)
Definition bind_channel (identity from channel : string) (s : binding_loop)
  : option binding_loop :=
  if decide (channel = "slack") then
    users' ← set_binding identity channel slack_marker (loop_users s);
    Some (BindingLoop users' (loop_calls s) (loop_pending s))
  else
    Some (BindingLoop (loop_users s)
            (loop_calls s ++ [AddBinding identity "sms" from])
            (loop_pending s ++ [channel])).

(** The reactions hung on [Promise.all(promises)]:
    [.then(() => persistUsers()).catch(() => logger.warn(..))].
    They run when the combined promise settles, once. *)
Definition all_reactions (before after : all_status) (users : registry)
  : list effect :=
  match before, after with
  | AllPending, AllFulfilled => persistUsers users
  | AllPending, AllRejected => [LogWarn "Failed to register user's channels."]
  | _, _ => []
  end.

(** One turn of the event loop: the registry it leaves, what it did, and
    for a registration the promises it leaves outstanding. *)
Record turn : Type := Turn {
  after : registry;
  trace : list effect;
  pending : list string;
  combined : promise_all
}.

Definition finished (users : registry) (tr : list effect) : turn :=
  Turn users tr [] (PromiseAll 0 AllFulfilled).

(** [app.post('/users', ...)]; [None] when the handler throws. *)
Definition post_users (req : sms_request) (users : registry) : option turn :=
  match new_RegistrationCommand (Body req) with
  | None => Some (finished users [Respond help])
  | Some command =>
      if isUnsubscribe command then
        match users !! identity command with
        | Some b =>
            let users' := delete (identity command) users in
            Some (finished users'
                    (delete_bindings b ++ persistUsers users'
                     ++ [Respond (unsubscribed (identity command))]))
        | None =>
            Some (finished users
                    [Respond (unsubscribed (identity command))])
        end
      else if decide (length (channels command) = 0) then
        Some (finished users [Respond no_valid_channels])
      else
        let msg :=
          if users !! identity command is Some _
          then "Looks like you are already registered "
               +:+ identity command +:+ "." +:+ nl
               +:+ "We've updated your notification preferences to "
               +:+ join ", " (channels command) +:+ "."
          else "Thanks for signing up " +:+ identity command
               +:+ ". You're signed up to receive notifications on "
               +:+ join ", " (channels command) +:+ "." in
        s ← forEach (bind_channel (identity command) (From req))
               (channels command)
               (BindingLoop (<[identity command := ∅]> users) [] []);
        let all := all_start (length (loop_pending s)) in
        Some (Turn (loop_users s)
                (loop_calls s ++ [Respond (signed_up msg)]
                 ++ all_reactions AllPending (status all) (loop_users s))
                (loop_pending s) all)
  end.

(** The turn in which the [addBinding] promise of [channel] settles. *)
Definition addBinding_settled (identity channel : string)
    (o : outcome string) (users : registry) (all : promise_all)
  : registry * promise_all * list effect :=
  match o with
  | Resolved res =>
      match set_binding identity channel res users with
      | Some users' =>
          let all' := all_element_fulfilled all in
          (users', all', all_reactions (status all) (status all') users')
      | None =>
          (* the reaction throws; the wrapping promise never settles *)
          (users, all, [Throw "TypeError"])
      end
  | Rejected err =>
      let all' := all_element_rejected all in
      (users, all',
       LogWarn ("Failed to add Binding for user " +:+ identity +:+ ": "
                +:+ err)
       :: all_reactions (status all) (status all') users)
  end.

(** What happens between a registration and the moment all its promises
    have settled: its own promises settle, in any order, and other turns
    run in between. *)
Inductive step : Type :=
| Settles (channel : string) (o : outcome string)
| Elsewhere (f : registry -> registry).

Fixpoint run_steps (identity : string) (steps : list step)
    (users : registry) (all : promise_all)
  : registry * promise_all * list effect :=
  match steps with
  | [] => (users, all, [])
  | Settles channel o :: rest =>
      let '(users', all', tr) := addBinding_settled identity channel o users all in
      let '(users'', all'', tr') := run_steps identity rest users' all' in
      (users'', all'', tr ++ tr')
  | Elsewhere f :: rest => run_steps identity rest (f users) all
  end.





(** *** GET /users *)


(** *** The process: registry, menu and the start-up gate *)

(** [Promise.all([cater2MeMenuLoaded]).then(listen, fail)]: still
    waiting for the promise of the first tick, listening, or given up. *)
Inductive gate : Type := Waiting | Serving | Aborted.

(** [ticks] counts the runs of [onTick]; the promise the n-th run stores
    in [cater2MeMenuLoaded] is known by its number, from 0. *)
Record process : Type := Process {
  users : registry;
  cater2MeMenu : option menu;        (* null until a load succeeds *)
  ticks : nat;
  startup : gate
}.

(** Reading the snapshot:
    [try { users = JSON.parse(fs.readFileSync(file)); }
     catch (err) { users = {}; }]
    [read] is [None] when [readFileSync] throws. *)
Definition load_users (read : option string) : registry :=
  match read with
  | Some text =>
      match JSON_parse text with
      | Some parsed => parsed
      | None => ∅
      end
  | None => ∅
  end.

(** [onTick] of the cron job: a fresh promise around
    [cater2me.loadTodaysMenu()]. *)
Definition onTick (p : process) : process * list effect :=
  (Process (users p) (cater2MeMenu p) (S (ticks p)) (startup p),
   [LoadTodaysMenu]).

(** The module body, top to bottom.  [config] is [false] when reading or
    parsing config.json throws, which nothing catches.  The cron job is
    created with [runOnInit], so the first tick runs before the gate is
    set up. *)
Definition boot (config : bool) (read : option string)
  : option (process * list effect) :=
  if config then
    let p0 := Process (load_users read) None 0 Waiting in
    let '(p1, tr) := onTick p0 in
    Some (p1, [ReadFile "./config.json"; LogWarn "Starting up...";
               ReadFile file] ++ tr)
  else None.

(** The reactions of the start-up gate, run when the promise of tick 0
    settles. *)
Definition gate_reactions (o : outcome menu) (g : gate) : gate * list effect :=
  match g, o with
  | Waiting, Resolved _ => (Serving, [Listen])
  | Waiting, Rejected err =>
      (Aborted, [LogError "Failed to initialize web server"; Throw err])
  | g, _ => (g, [])
  end.

(** The turn in which the [loadTodaysMenu] promise of tick [n] settles. *)
Definition loadTodaysMenu_settled (n : nat) (o : outcome menu) (p : process)
  : process * list effect :=
  let '(g, gtr) :=
    if decide (n = 0) then gate_reactions o (startup p)
    else (startup p, []) in
  match o with
  | Resolved res => (Process (users p) (Some res) (ticks p) g, gtr)
  | Rejected err =>
      (Process (users p) (cater2MeMenu p) (ticks p) g,
       LogWarn ("Failed to load Cater2Me menu: " +:+ err) :: gtr)
  end.

(** A refresh from start to end: the tick and the settling of its
    promise.  The tick of [boot] is number 0. *)
Definition refresh (o : outcome menu) (p : process) : process * list effect :=
  let '(p1, tr1) := onTick p in
  let '(p2, tr2) := loadTodaysMenu_settled (ticks p) o p1 in
  (p2, tr1 ++ tr2).

(** The process after a run of refreshes, oldest first. *)
Definition refreshes (os : list (outcome menu)) (p : process) : process :=
  foldl (λ q o, (refresh o q).1) p os.

(** What the menu machinery does after start-up: the cron job ticks, and
    the promise of tick [n] settles. *)
Inductive menu_event : Type :=
| Tick
| Loaded (n : nat) (o : outcome menu).

Definition menu_step (e : menu_event) (p : process) : process * list effect :=
  match e with
  | Tick => onTick p
  | Loaded n o => loadTodaysMenu_settled n o p
  end.

Fixpoint menu_run (es : list menu_event) (p : process)
  : process * list effect :=
  match es with
  | [] => (p, [])
  | e :: rest =>
      let '(p1, tr1) := menu_step e p in
      let '(p2, tr2) := menu_run rest p1 in
      (p2, tr1 ++ tr2)
  end.



(** The content of the latest load that succeeded. *)
Fixpoint last_resolved (os : list (outcome menu)) : option menu :=
  match os with
  | [] => None
  | o :: rest =>
      match last_resolved rest with
      | Some m => Some m
      | None => match o with Resolved m => Some m | Rejected _ => None end
      end
  end.

(** The process before anything has run [onTick]. *)
Definition fresh (u : registry) : process := Process u None 0 Waiting.

(** *** GET /menu *)

Definition unavailable : response :=
  Plain 503 "Today's menu is currently unavailable, try again later.".

(** [if (!cater2MeMenu) { 503 } else { 200, cater2MeMenu }] *)
Definition get_menu (p : process) : list effect :=
  match cater2MeMenu p with
  | Some m =>
      if menu_truthy m then [Respond (MenuBody 200 m)]
      else [Respond unavailable]
  | None => [Respond unavailable]
  end.

(** *** POST /lunch *)

(** The body of [for (var u in users)]: [users[u].slack] is the stored
    handle, or undefined. *)
Definition notify_user (m : option menu) (ub : string * bindings)
  : list effect :=
  NotifyUserByIdentity ub.1 "Lunch"
  :: match ub.2 !! "slack" with
     | Some h =>
         if truthy h
         then [SlackNotifyUser ub.1 "*Lunch has arrived!*" [m]]
         else []
     | None => []
     end.

Definition post_lunch (p : process) : list effect :=
  (map_to_list (users p) ≫= notify_user (cater2MeMenu p))
  ++ [Respond (Plain 200 "Notifying")].





(** *** POST /gcm and DELETE /gcm *)

(** The body of a /gcm request: [req.body.User], [req.body.Token]; [None]
    is a field that is not there.  Field values are strings. *)
Record gcm_request : Type := {
  User : option string;
  Token : option string
}.

(** [!field]: the field is not there, or is the empty string. *)
Definition missing (field : option string) : bool :=
  match field with
  | Some text => negb (truthy text)
  | None => true
  end.

(** [req.body.User.toLowerCase().trim()] *)
Definition gcm_user (text : string) : string :=
  Grammar.trim (Grammar.toLowerCase text).

(** What a /gcm turn leaves: the registry, what it did, and the user whose
    [addBinding] promise is outstanding, if any. *)
Record gcm_turn : Type := GcmTurn {
  gcm_after : registry;
  gcm_trace : list effect;
  gcm_pending : option string
}.

(** [app.post('/gcm', ...)] *)
Definition post_gcm (req : gcm_request) (users : registry) : gcm_turn :=
  match User req, Token req with
  | Some user_text, Some token_text =>
      if missing (User req) || missing (Token req) then
        GcmTurn users [Respond (Plain 400 "Must provide User and Token params")]
          None
      else
        let user := gcm_user user_text in
        let gcmToken := Grammar.trim token_text in
        let users' :=
          if users !! user is Some _ then users else <[user := ∅]> users in
        GcmTurn users'
          [AddBinding user "gcm" gcmToken;
           Respond (Plain 200 "Registered GCM!")]
          (Some user)
  | _, _ =>
      GcmTurn users [Respond (Plain 400 "Must provide User and Token params")]
        None
  end.

(** The turn in which the [addBinding] promise of POST /gcm settles:
    [.then(function(bindSid) {
         if (!bindSid) { logger.warn(..); return; }
         users[user]['chrome'] = bindSid; persistUsers(); },
       function(err) { logger.warn(..); })].
    A result that is not there is the empty string here. *)
Definition gcm_settled (user : string) (o : outcome string) (users : registry)
  : registry * list effect :=
  match o with
  | Resolved bindSid =>
      if truthy bindSid then
        match set_binding user "chrome" bindSid users with
        | Some users' => (users', persistUsers users')
        | None => (users, [Throw "TypeError"])
        end
      else (users, [LogWarn ("Failed to create gcm binding for " +:+ user)])
  | Rejected err =>
      (users, [LogWarn ("Failed to create gcm binding for " +:+ user)])
  end.

(** [app.delete('/gcm', ...)] *)
Definition delete_gcm (req : gcm_request) (users : registry)
  : registry * list effect :=
  match User req with
  | Some user_text =>
      if missing (User req) then
        (users, [Respond (Plain 400 "Must provide User param")])
      else
        let user := gcm_user user_text in
        match users !! user with
        | Some b =>
            match b !! "chrome" with
            | Some handle =>
                if truthy handle then
                  let users' := <[user := delete "chrome" b]> users in
                  (users',
                   [DeleteBinding handle] ++ persistUsers users'
                   ++ [Respond (Plain 204 "")])
                else (users, [Respond (Plain 204 "")])
            | None => (users, [Respond (Plain 204 "")])
            end
        | None => (users, [Respond (Plain 204 "")])
        end
  | None => (users, [Respond (Plain 400 "Must provide User param")])
  end.

(** *** What a trace holds *)

(** The identities the notify service is asked to notify. *)
Definition notified (tr : list effect) : list string :=
  omap (λ e, match e with
             | NotifyUserByIdentity u _ => Some u
             | _ => None
             end) tr.

(** The warnings logged. *)
Definition warnings (tr : list effect) : list string :=
  omap (λ e, match e with LogWarn msg => Some msg | _ => None end) tr.

(** How often the server is told to listen. *)
Definition listens (tr : list effect) : nat :=
  length (omap (λ e, match e with Listen => Some () | _ => None end) tr).

(** Every slack binding of the registry is the constant marker. *)
Definition slack_marked (u : registry) : Prop :=
  ∀ id (b : bindings) h,
    u !! id = Some b → b !! "slack" = Some h → h = slack_marker.

(** Every step is the settling of a promise. *)
Definition only_settles (steps : list step) : Prop :=
  Forall (λ s, match s with Settles _ _ => True | Elsewhere _ => False end)
         steps.

(** What a settling promise of a registration can do outside the process:
    write the registry, log a warning, or throw. *)
Definition settling_effect (e : effect) : Prop :=
  match e with
  | WriteFile _ _ | LogWarn _ | Throw _ => True
  | _ => False
  end.

(** The entry a registration stores before any promise has settled. *)
Definition marked_entry (command : RegistrationCommand) : bindings :=
  if bool_decide ("slack" ∈ channels command)
  then {["slack" := slack_marker]} else ∅.

(** ** Properties *)

(** *** Registration *)

Lemma set_binding_Some id ch v (u : registry) b :
  u !! id = Some b →
  set_binding id ch v u = Some (<[id := <[ch := v]> b]> u).
Proof. intros H. unfold set_binding. by rewrite H. Qed.

Lemma bind_channel_slack id from s b :
  loop_users s !! id = Some b →
  bind_channel id from "slack" s
  = Some (BindingLoop (<[id := <["slack" := slack_marker]> b]> (loop_users s))
            (loop_calls s) (loop_pending s)).
Proof.
  intros Hb. unfold bind_channel.
  rewrite decide_True by done. by rewrite (set_binding_Some _ _ _ _ _ Hb).
Qed.

Lemma bind_channel_other id from ch s :
  ch ≠ "slack" →
  bind_channel id from ch s
  = Some (BindingLoop (loop_users s)
            (loop_calls s ++ [AddBinding id "sms" from])
            (loop_pending s ++ [ch])).
Proof. intros Hne. unfold bind_channel. by rewrite decide_False. Qed.

(** The loop over the channels never throws once the entry exists: it
    marks slack, and calls the binding client for every other channel. *)
Lemma forEach_bind_channel id from chs :
  ∀ s b, loop_users s !! id = Some b →
    ∃ s', forEach (bind_channel id from) chs s = Some s'
      ∧ loop_users s'
        = <[id := if bool_decide ("slack" ∈ chs)
                  then <["slack" := slack_marker]> b else b]> (loop_users s)
      ∧ loop_pending s' = loop_pending s ++ filter (λ c, c ≠ "slack") chs
      ∧ loop_calls s'
        = loop_calls s
          ++ ((λ _, AddBinding id "sms" from)
                <$> filter (λ c, c ≠ "slack") chs).
Proof.
  induction chs as [|ch rest IH]; intros s b Hb.
  - exists s. rewrite bool_decide_eq_false_2 by (by intros ?%elem_of_nil).
    cbn. rewrite !app_nil_r, insert_id by done. done.
  - cbn [forEach].
    destruct (decide (ch = "slack")) as [->|Hne].
    + rewrite (bind_channel_slack _ _ _ _ Hb). cbn [mbind option_bind].
      edestruct (IH (BindingLoop (<[id:=<["slack":=slack_marker]> b]> (loop_users s))
                       (loop_calls s) (loop_pending s)))
        as (s' & Hs' & Hu & Hp & Hc).
      { cbn. apply lookup_insert_eq. }
      exists s'. split; [done|]. cbn in Hu, Hp, Hc.
      rewrite Hu, Hp, Hc, insert_insert_eq.
      rewrite (bool_decide_eq_true_2 ("slack" ∈ "slack" :: rest))
        by (by constructor).
      rewrite filter_cons_False by (intros H; by apply H).
      split_and!; try done.
      case_bool_decide; [by rewrite insert_insert_eq | done].
    + rewrite (bind_channel_other _ _ _ _ Hne). cbn [mbind option_bind].
      edestruct (IH (BindingLoop (loop_users s)
                       (loop_calls s ++ [AddBinding id "sms" from])
                       (loop_pending s ++ [ch])))
        as (s' & Hs' & Hu & Hp & Hc); [exact Hb|].
      exists s'. split; [done|]. cbn in Hu, Hp, Hc.
      rewrite Hu, Hp, Hc, filter_cons_True by done.
      rewrite fmap_cons, <- !app_assoc.
      split_and!; try done.
      rewrite (bool_decide_ext ("slack" ∈ ch :: rest) ("slack" ∈ rest)); [done|].
      rewrite elem_of_cons. split; [|by right].
      intros [Heq|Hin]; [by subst ch | done].
Qed.

(** The synchronous part of a registration. *)
Lemma post_users_subscribe req (u : registry) command :
  new_RegistrationCommand (Body req) = Some command →
  isUnsubscribe command = false →
  channels command ≠ [] →
  ∃ t msg,
    post_users req u = Some t
    ∧ after t
      = <[identity command :=
            if bool_decide ("slack" ∈ channels command)
            then {["slack" := slack_marker]} else ∅]> u
    ∧ pending t = filter (λ c, c ≠ "slack") (channels command)
    ∧ combined t = all_start (length (pending t))
    ∧ trace t
      = ((λ _, AddBinding (identity command) "sms" (From req)) <$> pending t)
        ++ [Respond (signed_up msg)]
        ++ all_reactions AllPending (status (combined t)) (after t).
Proof.
  intros Hparse Hsub Hne. unfold post_users. rewrite Hparse, Hsub.
  rewrite decide_False by (by destruct (channels command)).
  destruct (forEach_bind_channel (identity command) (From req)
              (channels command)
              (BindingLoop (<[identity command := ∅]> u) [] []) ∅)
    as (s & -> & Hu & Hp & Hc).
  { cbn. apply lookup_insert_eq. }
  cbn [mbind option_bind]. cbn in Hu, Hp, Hc.
  eexists _, _. split; [reflexivity|]. cbn.
  rewrite Hu, Hp, Hc, insert_insert_eq, insert_empty. done.
Qed.






(** *** Persisting a registration *)

Lemma writes_app tr1 tr2 : writes (tr1 ++ tr2) = writes tr1 ++ writes tr2.
Proof. apply omap_app. Qed.

Lemma writes_calls (f : string → effect) (l : list string) :
  (∀ c, writes [f c] = []) → writes (f <$> l) = [].
Proof.
  intros Hf. induction l as [|c l IH]; [done|].
  rewrite fmap_cons. change (f c :: (f <$> l)) with ([f c] ++ (f <$> l)).
  by rewrite writes_app, Hf, IH.
Qed.




Lemma addBinding_settled_resolved id ch res (u : registry) all b :
  u !! id = Some b →
  addBinding_settled id ch (Resolved res) u all
  = (<[id := <[ch := res]> b]> u, all_element_fulfilled all,
     all_reactions (status all) (status (all_element_fulfilled all))
       (<[id := <[ch := res]> b]> u)).
Proof.
  intros Hb. unfold addBinding_settled.
  by rewrite (set_binding_Some _ _ _ _ _ Hb).
Qed.






(** *** Unsubscribing *)

Lemma deletions_app tr1 tr2 :
  deletions (tr1 ++ tr2) = deletions tr1 ++ deletions tr2.
Proof. apply omap_app. Qed.


Lemma writes_delete_bindings (b : bindings) : writes (delete_bindings b) = [].
Proof.
  unfold delete_bindings.
  induction (filter _ (map_to_list b)) as [|kv l IH]; [done|].
  rewrite fmap_cons. exact IH.
Qed.

Lemma responses_delete_bindings (b : bindings) :
  responses (delete_bindings b) = [].
Proof.
  unfold delete_bindings.
  induction (filter _ (map_to_list b)) as [|kv l IH]; [done|].
  rewrite fmap_cons. exact IH.
Qed.


(** *** A command without a valid channel *)

(** C8: a command that constructs with no channel left is not answered
    with the help text of a malformed command but with the message that
    asks for a valid channel; the registry stays as it is, and nothing is
    called, written or left outstanding. *)
Theorem no_valid_channel_rejected req (u : registry) command :
  new_RegistrationCommand (Body req) = Some command →
  isUnsubscribe command = false →
  channels command = [] →
  ∃ t,
    post_users req u = Some t
    ∧ trace t = [Respond no_valid_channels]
    ∧ no_valid_channels ≠ help
    ∧ after t = u
    ∧ writes (trace t) = []
    ∧ binding_calls (trace t) = []
    ∧ pending t = [].
Proof.
  intros Hparse Hsub Hnone. unfold post_users.
  rewrite Hparse, Hsub, Hnone. cbn.
  eexists. split; [reflexivity|]. split_and!; done.
Qed.

(** *** Dispatch *)




(** *** The menu *)

Lemma cater2MeMenu_refresh o p :
  cater2MeMenu (refresh o p).1
  = match o with Resolved m => Some m | Rejected _ => cater2MeMenu p end.
Proof.
  unfold refresh, onTick, loadTodaysMenu_settled. cbn.
  destruct (decide (ticks p = 0)), o; cbn;
    try destruct (gate_reactions _ _); done.
Qed.

Lemma cater2MeMenu_refreshes os :
  ∀ p, cater2MeMenu (refreshes os p)
       = match last_resolved os with
         | Some m => Some m
         | None => cater2MeMenu p
         end.
Proof.
  induction os as [|o os IH]; intros p; [done|].
  change (refreshes (o :: os) p) with (refreshes os (refresh o p).1).
  rewrite IH, cater2MeMenu_refresh. cbn.
  destruct (last_resolved os); [done|]. by destruct o.
Qed.





(** The guard of GET /menu tests the stored content itself: content the
    language takes for false is answered as unavailable, though the load
    that stored it succeeded. *)
Lemma menu_unavailable_when_content_falsy (u : registry) os m :
  last_resolved os = Some m →
  menu_truthy m = false →
  cater2MeMenu (refreshes os (fresh u)) = Some m
  ∧ get_menu (refreshes os (fresh u)) = [Respond unavailable].
Proof.
  intros Hlast Hfalsy.
  assert (cater2MeMenu (refreshes os (fresh u)) = Some m) as Hm.
  { by rewrite cater2MeMenu_refreshes, Hlast. }
  split; [done|]. unfold get_menu. by rewrite Hm, Hfalsy.
Qed.

(** *** Start-up *)

Lemma gate_reactions_Aborted o : gate_reactions o Aborted = (Aborted, []).
Proof. by destruct o. Qed.

Lemma menu_step_Aborted e p :
  startup p = Aborted →
  startup (menu_step e p).1 = Aborted ∧ Listen ∉ (menu_step e p).2.
Proof.
  intros Hp. destruct e as [|n o]; cbn.
  - split; [done|]. by intros [=]%list_elem_of_singleton.
  - unfold loadTodaysMenu_settled. rewrite Hp, gate_reactions_Aborted.
    destruct (decide (n = 0)), o; cbn; split; try done;
      try (by intros []%elem_of_nil); by intros [=]%list_elem_of_singleton.
Qed.

Lemma menu_run_Aborted es :
  ∀ p, startup p = Aborted →
       startup (menu_run es p).1 = Aborted ∧ Listen ∉ (menu_run es p).2.
Proof.
  induction es as [|e es IH]; intros p Hp; cbn.
  - split; [done|]. by intros []%elem_of_nil.
  - destruct (menu_step_Aborted e p Hp) as [H1 H2].
    destruct (menu_step e p) as [p1 tr1]. cbn in H1, H2.
    destruct (IH p1 H1) as [H3 H4].
    destruct (menu_run es p1) as [p2 tr2]. cbn in *.
    split; [done|]. intros [|]%elem_of_app; done.
Qed.

(** C3: the module body runs to the gate without listening; the server
    starts to listen in the turn in which the first load succeeds; when
    the first load fails the gate logs the failure, rethrows, and the
    server never listens, whatever the cron job loads later. *)
Theorem startup_serves_once_first_load_succeeds read (o : outcome menu) :
  ∃ p0 tr0,
    boot true read = Some (p0, tr0)
    ∧ startup p0 = Waiting
    ∧ (Listen ∉ tr0)
    ∧ (match o with
       | Resolved m =>
           loadTodaysMenu_settled 0 o p0
           = (Process (users p0) (Some m) (ticks p0) Serving, [Listen])
       | Rejected err =>
           loadTodaysMenu_settled 0 o p0
           = (Process (users p0) None (ticks p0) Aborted,
              [LogWarn ("Failed to load Cater2Me menu: " +:+ err);
               LogError "Failed to initialize web server";
               Throw err])
           ∧ ∀ es,
               let later := menu_run es (loadTodaysMenu_settled 0 o p0).1 in
               startup (later.1) = Aborted ∧ Listen ∉ later.2
       end).
Proof.
  eexists _, _. split; [reflexivity|]. split; [done|]. split.
  - intros H. repeat (apply elem_of_cons in H as [H|H]; [discriminate H|]).
    by apply elem_of_nil in H.
  - destruct o as [m|err]; [done|]. split; [done|].
    intros es. by apply menu_run_Aborted.
Qed.


(** *** persistUsers *)

(** C10: the promise of [persistUsers] settles the wrong way round. A write
    that succeeds rejects the promise, with no value; a write that fails
    with [err] fulfils it, carrying the error; so a caller that awaits it
    sees a throw exactly when the snapshot was written. *)
Theorem persistUsers_promise_inverted :
  persistUsers_promise None = RejectedWith Undefined
  /\ (forall err, persistUsers_promise (Some err) = Fulfilled (Error err))
  /\ await (persistUsers_promise None) = Thrown Undefined
  /\ (forall err, await (persistUsers_promise (Some err)) = Returned (Error err))
  /\ (forall written,
        (exists v, await (persistUsers_promise written) = Thrown v)
        <-> written = None).
Proof.
  repeat split; try done.
  - intros [v Hv]. destruct written as [err|]; [discriminate Hv | done].
  - intros ->. by exists Undefined.
Qed.

(** *** More on POST /users *)

Lemma omap_none_Forall {A B} (f : A → option B) (P : A → Prop) (l : list A) :
  (∀ x, P x → f x = None) → Forall P l → omap f l = [].
Proof.
  intros Hf Hl. induction Hl as [|x l Hx Hl IH]; [done|].
  cbn. by rewrite (Hf x Hx).
Qed.

Lemma omap_none_fmap {A B C} (f : B → option C) (g : A → B) (l : list A) :
  (∀ x, f (g x) = None) → omap f (g <$> l) = [].
Proof. intros Hf. induction l as [|x l IH]; [done|]. cbn. by rewrite Hf. Qed.

Lemma all_reactions_effects before after' (u : registry) :
  Forall settling_effect (all_reactions before after' u).
Proof. destruct before, after'; cbn; by repeat constructor. Qed.

Lemma addBinding_settled_effects id ch o (u : registry) all :
  Forall settling_effect (addBinding_settled id ch o u all).2.
Proof.
  unfold addBinding_settled. destruct o as [res|err].
  - destruct (set_binding id ch res u); cbn.
    + apply all_reactions_effects.
    + by repeat constructor.
  - cbn. constructor; [done|]. apply all_reactions_effects.
Qed.

Lemma run_steps_effects id steps :
  ∀ (u : registry) all, Forall settling_effect (run_steps id steps u all).2.
Proof.
  induction steps as [|[ch o|f] rest IH]; intros u all; cbn [run_steps].
  - constructor.
  - pose proof (addBinding_settled_effects id ch o u all) as H1.
    destruct (addBinding_settled id ch o u all) as [[u1 a1] t1].
    pose proof (IH u1 a1) as H2.
    destruct (run_steps id rest u1 a1) as [[u2 a2] t2]. cbn in *.
    by apply Forall_app.
  - apply IH.
Qed.

Lemma addBinding_settled_others id ch o (u : registry) all j :
  id ≠ j → (addBinding_settled id ch o u all).1.1 !! j = u !! j.
Proof.
  intros Hne. unfold addBinding_settled. destruct o as [res|err]; [|done].
  unfold set_binding. destruct (u !! id) as [b|]; cbn; [|done].
  by rewrite lookup_insert_ne.
Qed.

Lemma run_steps_others id steps j :
  id ≠ j → only_settles steps →
  ∀ (u : registry) all, (run_steps id steps u all).1.1 !! j = u !! j.
Proof.
  intros Hne Hs. induction Hs as [|[ch o|f] rest Hx Hs IH]; intros u all;
    cbn [run_steps]; [done| |done].
  pose proof (addBinding_settled_others id ch o u all j Hne) as H1.
  destruct (addBinding_settled id ch o u all) as [[u1 a1] t1].
  pose proof (IH u1 a1) as H2.
  destruct (run_steps id rest u1 a1) as [[u2 a2] t2]. cbn in *. congruence.
Qed.

(** The registry a POST /users turn leaves, branch by branch. *)
Lemma post_users_cases req (u : registry) :
  ∃ t, post_users req u = Some t
    ∧ match new_RegistrationCommand (Body req) with
      | None => t = finished u [Respond help]
      | Some command =>
          if isUnsubscribe command then
            match u !! identity command with
            | Some b =>
                t = finished (delete (identity command) u)
                      (delete_bindings b
                       ++ persistUsers (delete (identity command) u)
                       ++ [Respond (unsubscribed (identity command))])
            | None => t = finished u [Respond (unsubscribed (identity command))]
            end
          else if decide (channels command = []) then
            t = finished u [Respond no_valid_channels]
          else
            after t = <[identity command := marked_entry command]> u
            ∧ pending t = filter (λ c, c ≠ "slack") (channels command)
            ∧ combined t = all_start (length (pending t))
            ∧ ∃ msg,
                trace t
                = ((λ _, AddBinding (identity command) "sms" (From req))
                     <$> pending t)
                  ++ [Respond (signed_up msg)]
                  ++ all_reactions AllPending (status (combined t)) (after t)
      end.
Proof.
  destruct (new_RegistrationCommand (Body req)) as [command|] eqn:Hparse.
  - destruct (isUnsubscribe command) eqn:Hsub.
    + unfold post_users. rewrite Hparse, Hsub.
      destruct (u !! identity command); by eexists.
    + destruct (decide (channels command = [])) as [Hnil|Hne].
      * unfold post_users. rewrite Hparse, Hsub, Hnil. cbn. by eexists.
      * destruct (post_users_subscribe req u command Hparse Hsub Hne)
          as (t & msg & Ht & Hafter & Hpend & Hall & Htr).
        exists t. split; [done|]. split_and!; try done. by exists msg.
  - unfold post_users. rewrite Hparse. by eexists.
Qed.

Lemma responses_app tr1 tr2 :
  responses (tr1 ++ tr2) = responses tr1 ++ responses tr2.
Proof. apply omap_app. Qed.

Lemma binding_calls_app tr1 tr2 :
  binding_calls (tr1 ++ tr2) = binding_calls tr1 ++ binding_calls tr2.
Proof. apply omap_app. Qed.

Lemma responses_settling tr : Forall settling_effect tr → responses tr = [].
Proof. apply omap_none_Forall. by intros []. Qed.

Lemma deletions_settling tr : Forall settling_effect tr → deletions tr = [].
Proof. apply omap_none_Forall. by intros []. Qed.

Lemma binding_calls_settling tr :
  Forall settling_effect tr → binding_calls tr = [].
Proof. apply omap_none_Forall. by intros []. Qed.

(** Every POST /users is answered, once, and the handler does not throw;
    the turns in which the promises of a registration settle answer
    nothing. *)
Theorem post_users_answers_once req (u : registry) :
  ∃ t,
    post_users req u = Some t
    ∧ length (responses (trace t)) = 1
    ∧ ∀ id steps (u0 : registry) all,
        responses (run_steps id steps u0 all).2 = [].
Proof.
  destruct (post_users_cases req u) as (t & Ht & Hcases).
  exists t. split; [done|]. split.
  - destruct (new_RegistrationCommand (Body req)) as [command|];
      [|by subst t].
    destruct (isUnsubscribe command).
    + destruct (u !! identity command) as [b|]; subst t; [|done].
      cbn [trace finished]. rewrite !responses_app, responses_delete_bindings.
      done.
    + destruct (decide (channels command = [])); [by subst t|].
      destruct Hcases as (_ & _ & _ & msg & ->).
      rewrite !responses_app.
      rewrite (responses_settling (all_reactions _ _ _))
        by apply all_reactions_effects.
      unfold responses at 1. by rewrite omap_none_fmap.
  - intros id steps u0 all. apply responses_settling, run_steps_effects.
Qed.

(** A POST /users for one identity, and the settling of its promises,
    leave the entry of every other identity as it was. *)
Theorem registration_leaves_others req (u : registry) id j steps :
  id ≠ j →
  (∀ command,
     new_RegistrationCommand (Body req) = Some command →
     identity command = id) →
  only_settles steps →
  ∃ t,
    post_users req u = Some t
    ∧ after t !! j = u !! j
    ∧ ∀ all, (run_steps id steps (after t) all).1.1 !! j = u !! j.
Proof.
  intros Hne Hid Hsteps.
  destruct (post_users_cases req u) as (t & Ht & Hcases).
  exists t. split; [done|].
  assert (after t !! j = u !! j) as Hafter.
  { destruct (new_RegistrationCommand (Body req)) as [command|];
      [|by subst t].
    specialize (Hid command eq_refl). subst id.
    destruct (isUnsubscribe command).
    - destruct (u !! identity command) as [b|]; subst t; [|done].
      cbn. by rewrite lookup_delete_ne.
    - destruct (decide (channels command = [])); [by subst t|].
      destruct Hcases as (-> & _). by rewrite lookup_insert_ne. }
  split; [done|]. intros all. by rewrite run_steps_others.
Qed.


(** A registration never asks the notify service to delete a binding: the
    external bindings of an earlier entry of the identity are dropped from
    the registry, and stay at the service. *)
Theorem registration_never_deletes req (u : registry) command :
  new_RegistrationCommand (Body req) = Some command →
  isUnsubscribe command = false →
  channels command ≠ [] →
  ∃ t b,
    post_users req u = Some t
    ∧ deletions (trace t) = []
    ∧ after t !! identity command = Some b
    ∧ (∀ ch, ch ≠ "slack" → b !! ch = None)
    ∧ ∀ id steps (u0 : registry) all,
        deletions (run_steps id steps u0 all).2 = [].
Proof.
  intros Hparse Hsub Hne.
  destruct (post_users_subscribe req u command Hparse Hsub Hne)
    as (t & msg & Ht & Hafter & Hpend & Hall & Htr).
  exists t, (marked_entry command). split; [done|]. split_and!.
  - rewrite Htr, !deletions_app.
    rewrite (deletions_settling (all_reactions _ _ _))
      by apply all_reactions_effects.
    unfold deletions at 1. by rewrite omap_none_fmap.
  - rewrite Hafter. apply lookup_insert_eq.
  - intros ch Hch. unfold marked_entry. case_bool_decide.
    + by rewrite lookup_singleton_ne.
    + apply lookup_empty.
  - intros id steps u0 all. apply deletions_settling, run_steps_effects.
Qed.

Lemma binding_calls_added i k a (l : list string) :
  binding_calls ((λ _, AddBinding i k a) <$> l) = (λ _, (i, k, a)) <$> l.
Proof.
  induction l as [|c l IH]; [done|].
  rewrite !fmap_cons. cbn. f_equal. exact IH.
Qed.

(** A registration asks the notify service for one binding per requested
    channel other than slack, in the order of the request and counting
    repeats, each of the kind sms and to the address the message came
    from; for slack it asks for none. *)
Theorem registration_binding_calls req (u : registry) command :
  new_RegistrationCommand (Body req) = Some command →
  isUnsubscribe command = false →
  channels command ≠ [] →
  ∃ t,
    post_users req u = Some t
    ∧ binding_calls (trace t)
      = (λ _, (identity command, "sms", From req))
          <$> filter (λ c, c ≠ "slack") (channels command)
    ∧ length (binding_calls (trace t)) = length (pending t)
    ∧ ∀ id steps (u0 : registry) all,
        binding_calls (run_steps id steps u0 all).2 = [].
Proof.
  intros Hparse Hsub Hne.
  destruct (post_users_subscribe req u command Hparse Hsub Hne)
    as (t & msg & Ht & Hafter & Hpend & Hall & Htr).
  exists t. split; [done|].
  assert (binding_calls (trace t)
          = (λ _, (identity command, "sms", From req)) <$> pending t) as Hcalls.
  { rewrite Htr, !binding_calls_app.
    rewrite (binding_calls_settling (all_reactions _ _ _))
      by apply all_reactions_effects.
    cbn. rewrite app_nil_r. apply binding_calls_added. }
  split_and!.
  - by rewrite Hcalls, Hpend.
  - by rewrite Hcalls, length_fmap.
  - intros id steps u0 all. apply binding_calls_settling, run_steps_effects.
Qed.





(** Two registrations of one identity that overlap: a promise of the
    earlier one that settles after the later request stores its handle in
    the entry of the later one, under a channel the later one did not
    ask for. *)
Theorem late_settlement_joins_newer_registration
    req1 req2 (u : registry) c1 c2 ch h :
  new_RegistrationCommand (Body req1) = Some c1 →
  isUnsubscribe c1 = false →
  new_RegistrationCommand (Body req2) = Some c2 →
  isUnsubscribe c2 = false →
  channels c2 ≠ [] →
  identity c2 = identity c1 →
  ch ∈ channels c1 →
  ch ≠ "slack" →
  ch ∉ channels c2 →
  ∃ t1 t2,
    post_users req1 u = Some t1
    ∧ post_users req2 (after t1) = Some t2
    ∧ ch ∈ pending t1
    ∧ (ch ∉ pending t2)
    ∧ after t2 !! identity c1 = Some (marked_entry c2)
    ∧ marked_entry c2 !! ch = None
    ∧ (addBinding_settled (identity c1) ch (Resolved h) (after t2)
         (combined t1)).1.1 !! identity c1
      = Some (<[ch := h]> (marked_entry c2)).
Proof.
  intros H1 H1_no H2 H2_no Hne2 Hid Hin Hslack Hnotin.
  assert (channels c1 ≠ []) as Hne1.
  { intros Hnil. rewrite Hnil in Hin. by apply elem_of_nil in Hin. }
  destruct (post_users_subscribe req1 u c1 H1 H1_no Hne1)
    as (t1 & msg1 & Ht1 & Hafter1 & Hpend1 & _).
  destruct (post_users_subscribe req2 (after t1) c2 H2 H2_no Hne2)
    as (t2 & msg2 & Ht2 & Hafter2 & Hpend2 & _).
  assert (after t2 !! identity c1 = Some (marked_entry c2)) as Hentry.
  { rewrite Hafter2, Hid. apply lookup_insert_eq. }
  exists t1, t2. split_and!; try done.
  - rewrite Hpend1. by apply list_elem_of_filter.
  - rewrite Hpend2. by intros [_ ?]%list_elem_of_filter.
  - unfold marked_entry. case_bool_decide.
    + by rewrite lookup_singleton_ne.
    + apply lookup_empty.
  - rewrite (addBinding_settled_resolved _ _ _ _ _ _ Hentry). cbn.
    apply lookup_insert_eq.
Qed.

(** *** /gcm *)






(** A POST /gcm without a user or without a token (the field is not there
    or is empty) is refused with status 400: the registry stays as it is,
    the notify service is not called and no promise is left outstanding. *)
Theorem gcm_registration_refused req (u : registry) :
  missing (User req) = true ∨ missing (Token req) = true →
  gcm_after (post_gcm req u) = u
  ∧ gcm_trace (post_gcm req u)
    = [Respond (Plain 400 "Must provide User and Token params")]
  ∧ gcm_pending (post_gcm req u) = None.
Proof.
  intros Hmissing. unfold post_gcm.
  destruct (User req) as [user_text|], (Token req) as [token_text|]; try done.
  destruct Hmissing as [->| ->]; [done|]. by rewrite orb_true_r.
Qed.






(** *** The slack marker *)

Lemma slack_marked_insert (u : registry) id (b : bindings) :
  slack_marked u →
  (∀ h, b !! "slack" = Some h → h = slack_marker) →
  slack_marked (<[id := b]> u).
Proof.
  intros Hu Hb j b' h Hj Hh. destruct (decide (id = j)) as [->|Hne].
  - rewrite lookup_insert_eq in Hj. injection Hj as <-. by apply Hb.
  - rewrite lookup_insert_ne in Hj by done. by eapply Hu.
Qed.

Lemma slack_marked_delete (u : registry) id :
  slack_marked u → slack_marked (delete id u).
Proof.
  intros Hu j b h Hj Hh. apply lookup_delete_Some in Hj as [_ Hj].
  by eapply Hu.
Qed.

Lemma slack_marked_set_binding (u u' : registry) id ch v :
  slack_marked u → ch ≠ "slack" →
  set_binding id ch v u = Some u' → slack_marked u'.
Proof.
  intros Hu Hch. unfold set_binding.
  destruct (u !! id) as [b|] eqn:Hb; [|done]. cbn. intros [= <-].
  apply slack_marked_insert; [done|]. intros h.
  rewrite lookup_insert_ne by done. by apply (Hu id b).
Qed.

Lemma marked_entry_slack command h :
  marked_entry command !! "slack" = Some h → h = slack_marker.
Proof.
  unfold marked_entry. case_bool_decide.
  - rewrite lookup_singleton_eq. by intros [= <-].
  - by rewrite lookup_empty.
Qed.

(** No operation on the registry stores anything but the constant marker
    under slack: if every slack binding is the marker, it is so after a
    POST /users (whose outstanding promises are none for slack), after
    any of its promises settles, and after each turn of /gcm.  The empty
    registry has the property. *)
Theorem slack_marker_kept (u : registry) :
  slack_marked u →
  slack_marked ∅
  ∧ (∀ req t,
       post_users req u = Some t →
       slack_marked (after t) ∧ "slack" ∉ pending t)
  ∧ (∀ id ch o all,
       ch ≠ "slack" → slack_marked (addBinding_settled id ch o u all).1.1)
  ∧ (∀ req, slack_marked (gcm_after (post_gcm req u)))
  ∧ (∀ user o, slack_marked (gcm_settled user o u).1)
  ∧ (∀ req, slack_marked (delete_gcm req u).1).
Proof.
  intros Hu. split_and!.
  - intros id b h Hid. by rewrite lookup_empty in Hid.
  - intros req t Ht.
    destruct (post_users_cases req u) as (t' & Ht' & Hcases).
    rewrite Ht in Ht'. injection Ht' as <-.
    destruct (new_RegistrationCommand (Body req)) as [command|];
      [|subst t; split; [done | by intros []%elem_of_nil]].
    destruct (isUnsubscribe command).
    + destruct (u !! identity command) as [b|]; subst t;
        (split; [|by intros []%elem_of_nil]); [|done].
      by apply slack_marked_delete.
    + destruct (decide (channels command = []));
        [subst t; split; [done | by intros []%elem_of_nil]|].
      destruct Hcases as (-> & -> & _). split.
      * apply slack_marked_insert; [done|]. apply marked_entry_slack.
      * by intros [? _]%list_elem_of_filter.
  - intros id ch o all Hch. unfold addBinding_settled.
    destruct o as [res|err]; [|done].
    destruct (set_binding id ch res u) as [u'|] eqn:Hset; [|done].
    cbn. by eapply slack_marked_set_binding.
  - intros req. unfold post_gcm.
    destruct (User req) as [user_text|], (Token req) as [token_text|];
      try done.
    destruct (missing _ || missing _); [done|]. cbn.
    destruct (u !! gcm_user user_text); [done|].
    apply slack_marked_insert; [done|]. intros h. by rewrite lookup_empty.
  - intros user o. unfold gcm_settled. destruct o as [sid|err]; [|done].
    destruct (truthy sid); [|done].
    destruct (set_binding user "chrome" sid u) as [u'|] eqn:Hset; [|done].
    cbn. by eapply (slack_marked_set_binding u u' user "chrome" sid).
  - intros req. unfold delete_gcm.
    destruct (User req) as [user_text|]; [|done].
    destruct (missing _); [done|].
    destruct (u !! gcm_user user_text) as [b|] eqn:Hb; [|done].
    destruct (b !! "chrome") as [handle|]; [|done].
    destruct (truthy handle); [|done]. cbn.
    apply slack_marked_insert; [done|]. intros h.
    rewrite lookup_delete_ne by done. by apply (Hu (gcm_user user_text) b).
Qed.

(** *** More on POST /lunch *)

Lemma notified_notify m (l : list (string * bindings)) :
  notified (l ≫= notify_user m) = l.*1.
Proof.
  induction l as [|[u b] l IH]; [done|].
  rewrite bind_cons, fmap_cons. unfold notified in *.
  rewrite omap_app, IH. unfold notify_user. cbn.
  destruct (b !! "slack") as [h|]; [|done]. by destruct (truthy h).
Qed.

(** A dispatch asks the notify service to notify each identity of the
    registry exactly once, whether or not the identity has a binding, and
    nobody else, always with the message Lunch; it calls the slack bridge
    exactly for the identities with a non-empty slack binding, with the
    menu as it is stored at that moment, loaded or not. *)
Theorem dispatch_notifies_each_identity_once p :
  NoDup (notified (post_lunch p))
  ∧ (∀ u, u ∈ notified (post_lunch p) ↔ is_Some (users p !! u))
  ∧ length (notified (post_lunch p)) = size (users p)
  ∧ (∀ u msg, NotifyUserByIdentity u msg ∈ post_lunch p → msg = "Lunch")
  ∧ (∀ u msg attachments,
       SlackNotifyUser u msg attachments ∈ post_lunch p
       ↔ msg = "*Lunch has arrived!*"
         ∧ attachments = [cater2MeMenu p]
         ∧ ∃ b h, users p !! u = Some b
                  ∧ b !! "slack" = Some h
                  ∧ truthy h = true).
Proof.
  assert (notified (post_lunch p) = (map_to_list (users p)).*1) as Hn.
  { unfold post_lunch, notified. rewrite omap_app. cbn. rewrite app_nil_r.
    apply notified_notify. }
  rewrite Hn. split_and!.
  - apply NoDup_fst_map_to_list.
  - intros u. rewrite list_elem_of_fmap. split.
    + intros ([u' b] & -> & Hin). apply elem_of_map_to_list in Hin. by exists b.
    + intros [b Hb]. exists (u, b). split; [done|]. by apply elem_of_map_to_list.
  - by rewrite length_fmap, length_map_to_list.
  - intros u msg. unfold post_lunch. intros [Hin|Hin]%elem_of_app.
    + apply list_elem_of_bind in Hin as ([u' b] & Hin & _).
      unfold notify_user in Hin. cbn in Hin.
      apply elem_of_cons in Hin as [[= _ ->]|Hin]; [done|].
      destruct (b !! "slack") as [h|]; [|by apply elem_of_nil in Hin].
      destruct (truthy h); [|by apply elem_of_nil in Hin].
      by apply list_elem_of_singleton in Hin.
    + by apply list_elem_of_singleton in Hin.
  - intros u msg attachments. unfold post_lunch. rewrite elem_of_app.
    rewrite list_elem_of_bind. split.
    + intros [([u' b] & Hin & Hub)|Hin];
        [|by apply list_elem_of_singleton in Hin].
      apply elem_of_map_to_list in Hub. unfold notify_user in Hin. cbn in Hin.
      apply elem_of_cons in Hin as [Hin|Hin]; [done|].
      destruct (b !! "slack") as [h|] eqn:Hh; [|by apply elem_of_nil in Hin].
      destruct (truthy h) eqn:Htruthy; [|by apply elem_of_nil in Hin].
      apply list_elem_of_singleton in Hin. injection Hin as -> -> ->.
      split_and!; [done|done|]. by exists b, h.
    + intros (-> & -> & b & h & Hb & Hh & Htruthy). left.
      exists (u, b). split; [|by apply elem_of_map_to_list].
      unfold notify_user. cbn. rewrite Hh, Htruthy.
      apply elem_of_cons. right. constructor.
Qed.

(** *** More on start-up *)

Lemma listens_app tr1 tr2 : listens (tr1 ++ tr2) = listens tr1 + listens tr2.
Proof. unfold listens. by rewrite omap_app, length_app. Qed.

Lemma menu_step_listens e p :
  match startup p with
  | Waiting =>
      (startup (menu_step e p).1 = Serving ∧ listens (menu_step e p).2 = 1)
      ∨ (startup (menu_step e p).1 ≠ Serving ∧ listens (menu_step e p).2 = 0)
  | Serving =>
      startup (menu_step e p).1 = Serving ∧ listens (menu_step e p).2 = 0
  | Aborted =>
      startup (menu_step e p).1 = Aborted ∧ listens (menu_step e p).2 = 0
  end.
Proof.
  destruct e as [|n o]; cbn.
  - destruct (startup p); [right|..]; done.
  - unfold loadTodaysMenu_settled.
    destruct (decide (n = 0)), (startup p), o; cbn; try done;
      try (by left); by right.
Qed.

Lemma menu_run_listens es :
  ∀ p,
    match startup p with
    | Waiting =>
        listens (menu_run es p).2 ≤ 1
        ∧ (listens (menu_run es p).2 = 1 ↔ startup (menu_run es p).1 = Serving)
    | Serving =>
        startup (menu_run es p).1 = Serving ∧ listens (menu_run es p).2 = 0
    | Aborted =>
        startup (menu_run es p).1 = Aborted ∧ listens (menu_run es p).2 = 0
    end.
Proof.
  induction es as [|e es IH]; intros p.
  - cbn. destruct (startup p) eqn:Hp; cbn; rewrite ?Hp; try done.
    split; [lia|]. split; done.
  - cbn [menu_run]. pose proof (menu_step_listens e p) as Hstep.
    destruct (menu_step e p) as [p1 tr1]. specialize (IH p1).
    destruct (menu_run es p1) as [p2 tr2]. cbn [fst snd] in *.
    rewrite listens_app.
    destruct (startup p).
    + destruct Hstep as [[Hs Hl]|[Hs Hl]]; rewrite Hl.
      * rewrite Hs in IH. destruct IH as [-> ->]. split; [lia|]. done.
      * destruct (startup p1); [|done|].
        -- destruct IH as [Hle Hiff]. split; [lia|]. by rewrite Hiff.
        -- destruct IH as [Hst ->]. split; [lia|]. rewrite Hst. split; done.
    + destruct Hstep as [Hs ->]. rewrite Hs in IH. by destruct IH as [-> ->].
    + destruct Hstep as [Hs ->]. rewrite Hs in IH. by destruct IH as [-> ->].
Qed.

(** The server is told to listen at most once: not by the module body,
    and in the turns of the cron job after it exactly once if the gate
    ends up serving and never otherwise; a gate that serves keeps
    serving. *)
Theorem server_listens_at_most_once read es :
  ∃ p0 tr0,
    boot true read = Some (p0, tr0)
    ∧ listens tr0 = 0
    ∧ listens (menu_run es p0).2 ≤ 1
    ∧ (listens (menu_run es p0).2 = 1 ↔ startup (menu_run es p0).1 = Serving)
    ∧ ∀ later,
        startup (menu_run es p0).1 = Serving →
        startup (menu_run later (menu_run es p0).1).1 = Serving
        ∧ listens (menu_run later (menu_run es p0).1).2 = 0.
Proof.
  eexists _, _. split; [reflexivity|]. split; [done|].
  match goal with |- context [menu_run es ?p] => set (p0 := p) end.
  pose proof (menu_run_listens es p0) as H. cbn in H.
  destruct H as [Hle Hiff]. split; [done|]. split; [done|].
  intros later Hserving.
  pose proof (menu_run_listens later (menu_run es p0).1) as H.
  by rewrite Hserving in H.
Qed.

(** *** What is written *)

Lemma writes_all_reactions before after' (u s : registry) :
  s ∈ writes (all_reactions before after' u) → s = u.
Proof.
  destruct before, after'; cbn; intros Hin;
    try (by apply elem_of_nil in Hin).
  by apply list_elem_of_singleton in Hin.
Qed.

(** Whenever a turn writes, it writes the whole registry as that turn
    leaves it, entries of other identities and entries whose bindings are
    still being created included; POST /gcm itself never writes. *)
Theorem written_snapshot_is_registry (u : registry) :
  (∀ req t s,
     post_users req u = Some t → s ∈ writes (trace t) → s = after t)
  ∧ (∀ id ch o all s,
       s ∈ writes (addBinding_settled id ch o u all).2 →
       s = (addBinding_settled id ch o u all).1.1)
  ∧ (∀ req, writes (gcm_trace (post_gcm req u)) = [])
  ∧ (∀ user o s,
       s ∈ writes (gcm_settled user o u).2 → s = (gcm_settled user o u).1)
  ∧ (∀ req s,
       s ∈ writes (delete_gcm req u).2 → s = (delete_gcm req u).1).
Proof.
  split_and!.
  - intros req t s Ht.
    destruct (post_users_cases req u) as (t' & Ht' & Hcases).
    rewrite Ht in Ht'. injection Ht' as <-.
    destruct (new_RegistrationCommand (Body req)) as [command|];
      [|subst t; by intros []%elem_of_nil].
    destruct (isUnsubscribe command).
    + destruct (u !! identity command) as [b|]; subst t;
        [|by intros []%elem_of_nil].
      cbn [trace after finished].
      rewrite !writes_app, writes_delete_bindings. cbn.
      by intros ->%list_elem_of_singleton.
    + destruct (decide (channels command = []));
        [subst t; by intros []%elem_of_nil|].
      destruct Hcases as (_ & _ & _ & msg & ->).
      rewrite !writes_app, writes_calls by done.
      intros [Hin|Hin]%elem_of_app; [by apply elem_of_nil in Hin|].
      by apply writes_all_reactions in Hin.
  - intros id ch o all s. unfold addBinding_settled.
    destruct o as [res|err].
    + destruct (set_binding id ch res u) as [u'|]; cbn.
      * apply writes_all_reactions.
      * by intros []%elem_of_nil.
    + cbn. apply writes_all_reactions.
  - intros req. unfold post_gcm.
    destruct (User req), (Token req); try done.
    by destruct (missing _ || missing _).
  - intros user o s. unfold gcm_settled. destruct o as [sid|err];
      [|by intros []%elem_of_nil].
    destruct (truthy sid); [|by intros []%elem_of_nil].
    destruct (set_binding user "chrome" sid u) as [u'|]; cbn.
    + by intros ->%list_elem_of_singleton.
    + by intros []%elem_of_nil.
  - intros req s. unfold delete_gcm.
    destruct (User req) as [user_text|]; [|by intros []%elem_of_nil].
    destruct (missing _); [by intros []%elem_of_nil|].
    destruct (u !! gcm_user user_text) as [b|]; [|by intros []%elem_of_nil].
    destruct (b !! "chrome") as [handle|]; [|by intros []%elem_of_nil].
    destruct (truthy handle); [|by intros []%elem_of_nil]. cbn.
    by intros ->%list_elem_of_singleton.
Qed.

End App.

(** ** The properties at sample inputs *)




(** The first load of the menu fails: the server never listens. *)
Lemma first_load_failure_never_serves :
  ∃ p0 tr0,
    boot unit (λ _, None) true None = Some (p0, tr0)
    ∧ startup unit (loadTodaysMenu_settled unit 0 (Rejected "ETIMEDOUT") p0).1
      = Aborted
    ∧ startup unit (loadTodaysMenu_settled unit 0 (Rejected "ETIMEDOUT") p0).1
      ≠ Serving
    ∧ Listen unit
      ∉ tr0 ++ (loadTodaysMenu_settled unit 0 (Rejected "ETIMEDOUT") p0).2.
Proof.
  eexists _, _. split; [reflexivity|]. split; [reflexivity|].
  split; [discriminate|]. cbn.
  intros H. repeat (apply elem_of_cons in H as [H|H]; [discriminate H|]).
  by apply elem_of_nil in H.
Qed.




(** A command whose only token is not a channel. *)
Lemma no_valid_channel_rejected_witness :
  let parse := Grammar.parse Grammar.example_channels in
  let req := {| Body := "jdoe: bogus_channel"; From := "+15550100" |} in
  let u : registry := {[ "ann" := {[ "sms" := "BS1" ]} ]} in
  parse (Body req)
  = Some {| identity := "jdoe"; isUnsubscribe := false; channels := [] |}
  ∧ ∃ t,
      post_users unit parse Grammar.example_channels req u = Some t
      ∧ trace unit t
        = [Respond unit (no_valid_channels unit Grammar.example_channels)]
      ∧ no_valid_channels unit Grammar.example_channels
        ≠ help unit Grammar.example_channels
      ∧ after unit t = u
      ∧ writes unit (trace unit t) = []
      ∧ binding_calls unit (trace unit t) = []
      ∧ pending unit t = [].
Proof.
  intros parse req u.
  assert (parse (Body req)
          = Some {| identity := "jdoe"; isUnsubscribe := false; channels := [] |})
    as Hparse by evaluate.
  split; [exact Hparse|].
  exact (no_valid_channel_rejected unit parse Grammar.example_channels req u _
           Hparse eq_refl eq_refl).
Defined.


(** C7, at a registration for ios: the binding is asked for with the
    kind sms, not ios, and the address of the sender, and the handle that
    comes back is stored under ios. *)
Lemma subscribe_ios_binds_sms :
  let parse := Grammar.parse Grammar.example_channels in
  let req := {| Body := "jdoe: ios"; From := "+15550100" |} in
  let steps : list step := [ Settles "ios" (Resolved "BS9") ] in
  ∃ t,
    post_users unit parse Grammar.example_channels req ∅ = Some t
    ∧ binding_calls unit (trace unit t) = [("jdoe", "sms", "+15550100")]
    ∧ pending unit t = ["ios"]
    ∧ (run_steps unit "jdoe" steps (after unit t) (combined unit t)).1.1
      = {[ "jdoe" := {[ "ios" := "BS9" ]} ]}.
Proof.
  intros parse req steps.
  exists (default (finished unit ∅ [])
            (post_users unit parse Grammar.example_channels req ∅)).
  split; [evaluate|]. split; [evaluate|]. split; evaluate.
Qed.

(** A load that succeeds with an empty menu after one that delivered
    content. *)
Lemma menu_unavailable_when_content_falsy_witness :
  let nonempty (s : string) := bool_decide (s ≠ "") in
  let os := [ Resolved "Tacos"; Resolved "" ] in
  cater2MeMenu string (refreshes string os (fresh string ∅)) = Some ""
  ∧ get_menu string nonempty (refreshes string os (fresh string ∅))
    = [Respond string (unavailable string)].
Proof.
  intros nonempty os.
  exact (menu_unavailable_when_content_falsy string nonempty ∅ os ""
           eq_refl eq_refl).
Defined.

(** Ann registers while Bob has an entry. *)
Lemma registration_leaves_others_witness :
  let parse := Grammar.parse Grammar.example_channels in
  let req := {| Body := "ann: sms, slack"; From := "+15550101" |} in
  let u : registry := {[ "bob" := {[ "sms" := "BS7" ]} ]} in
  let steps : list step := [ Settles "sms" (Resolved "BS8") ] in
  ∃ t,
    post_users unit parse Grammar.example_channels req u = Some t
    ∧ after unit t !! "bob" = u !! "bob"
    ∧ ∀ all, (run_steps unit "ann" steps (after unit t) all).1.1 !! "bob"
             = u !! "bob".
Proof.
  intros parse req u steps.
  assert (parse (Body req)
          = Some {| identity := "ann"; isUnsubscribe := false;
                    channels := ["sms"; "slack"] |}) as Hparse by evaluate.
  refine (registration_leaves_others unit parse Grammar.example_channels
            req u "ann" "bob" steps _ _ _).
  - discriminate.
  - intros command Hcommand. rewrite Hparse in Hcommand.
    by injection Hcommand as <-.
  - repeat constructor.
Defined.


(** Jdoe, who has an sms and a chrome binding, registers again for slack. *)
Lemma registration_never_deletes_witness :
  let parse := Grammar.parse Grammar.example_channels in
  let req := {| Body := "jdoe: slack"; From := "+15550100" |} in
  let u : registry := {[ "jdoe" := {[ "sms" := "BS1"; "chrome" := "BS2" ]} ]} in
  ∃ t b,
    post_users unit parse Grammar.example_channels req u = Some t
    ∧ deletions unit (trace unit t) = []
    ∧ after unit t !! "jdoe" = Some b
    ∧ (∀ ch, ch ≠ "slack" → b !! ch = None)
    ∧ ∀ id steps (u0 : registry) all,
        deletions unit (run_steps unit id steps u0 all).2 = [].
Proof.
  intros parse req u.
  refine (registration_never_deletes unit parse Grammar.example_channels req u
            {| identity := "jdoe"; isUnsubscribe := false;
               channels := ["slack"] |} _ _ _).
  - evaluate.
  - reflexivity.
  - discriminate.
Defined.

(** A registration for slack, ios and sms. *)
Lemma registration_binding_calls_witness :
  let parse := Grammar.parse Grammar.example_channels in
  let req := {| Body := "jdoe: slack, ios, sms"; From := "+15550100" |} in
  ∃ t,
    post_users unit parse Grammar.example_channels req ∅ = Some t
    ∧ binding_calls unit (trace unit t)
      = [ ("jdoe", "sms", "+15550100"); ("jdoe", "sms", "+15550100") ]
    ∧ length (binding_calls unit (trace unit t)) = length (pending unit t)
    ∧ ∀ id steps (u0 : registry) all,
        binding_calls unit (run_steps unit id steps u0 all).2 = [].
Proof.
  intros parse req.
  refine (registration_binding_calls unit parse Grammar.example_channels req ∅
            {| identity := "jdoe"; isUnsubscribe := false;
               channels := ["slack"; "ios"; "sms"] |} _ _ _).
  - evaluate.
  - reflexivity.
  - discriminate.
Defined.


(** Jdoe registers for sms, then for slack, and the sms binding arrives
    after that. *)
Lemma late_settlement_joins_newer_registration_witness :
  let parse := Grammar.parse Grammar.example_channels in
  let req1 := {| Body := "jdoe: sms"; From := "+15550100" |} in
  let req2 := {| Body := "jdoe: slack"; From := "+15550100" |} in
  let c2 := {| identity := "jdoe"; isUnsubscribe := false;
               channels := ["slack"] |} in
  ∃ t1 t2,
    post_users unit parse Grammar.example_channels req1 ∅ = Some t1
    ∧ post_users unit parse Grammar.example_channels req2 (after unit t1)
      = Some t2
    ∧ "sms" ∈ pending unit t1
    ∧ ("sms" ∉ pending unit t2)
    ∧ after unit t2 !! "jdoe" = Some (marked_entry c2)
    ∧ marked_entry c2 !! "sms" = None
    ∧ (addBinding_settled unit "jdoe" "sms" (Resolved "BS1") (after unit t2)
         (combined unit t1)).1.1 !! "jdoe"
      = Some (<["sms" := "BS1"]> (marked_entry c2)).
Proof.
  intros parse req1 req2 c2.
  refine (late_settlement_joins_newer_registration unit parse
            Grammar.example_channels req1 req2 ∅
            {| identity := "jdoe"; isUnsubscribe := false; channels := ["sms"] |}
            c2 "sms" "BS1" _ _ _ _ _ _ _ _ _).
  - evaluate.
  - reflexivity.
  - evaluate.
  - reflexivity.
  - discriminate.
  - reflexivity.
  - constructor.
  - discriminate.
  - intros Hin. apply list_elem_of_singleton in Hin. discriminate Hin.
Defined.

(** A POST /gcm with an empty token. *)
Lemma gcm_registration_refused_witness :
  let req := {| User := Some "Ann"; Token := Some "" |} in
  let u : registry := {[ "bob" := {[ "sms" := "BS7" ]} ]} in
  gcm_after unit (post_gcm unit req u) = u
  ∧ gcm_trace unit (post_gcm unit req u)
    = [Respond unit (Plain unit 400 "Must provide User and Token params")]
  ∧ gcm_pending unit (post_gcm unit req u) = None.
Proof.
  intros req u.
  exact (gcm_registration_refused unit req u (or_intror eq_refl)).
Defined.






(** A registry with a slack binding. *)
Lemma slack_marker_kept_witness :
  let parse := Grammar.parse Grammar.example_channels in
  let u : registry := {[ "ann" := {[ "slack" := slack_marker ]} ]} in
  slack_marked u
  ∧ slack_marked ∅
  ∧ (∀ req t,
       post_users unit parse Grammar.example_channels req u = Some t →
       slack_marked (after unit t) ∧ "slack" ∉ pending unit t)
  ∧ (∀ id ch o all,
       ch ≠ "slack" →
       slack_marked (addBinding_settled unit id ch o u all).1.1)
  ∧ (∀ req, slack_marked (gcm_after unit (post_gcm unit req u)))
  ∧ (∀ user o, slack_marked (gcm_settled unit user o u).1)
  ∧ (∀ req, slack_marked (delete_gcm unit req u).1).
Proof.
  intros parse u.
  assert (slack_marked u) as Hu.
  { intros id b h Hid Hh.
    apply lookup_singleton_Some in Hid as [_ <-].
    by apply lookup_singleton_Some in Hh as [_ <-]. }
  split; [exact Hu|].
  exact (slack_marker_kept unit parse Grammar.example_channels u Hu).
Defined.
